(** * MicroCore [wiring.c]: timekeeping on the ATtiny13

    A shallow embedding of [avr/cores/microcore/wiring.c]: the timer0
    overflow handler, [micros], [delay] and [init], together with the
    properties the design document states about them.

    The C functions are written as programs over the atomic accesses they
    make to the I/O registers and to the volatile overflow counter.  One
    interpreter runs a program without interruption; a second one lets the
    timer0 overflow interrupt be serviced between two accesses whenever the
    global interrupt flag allows it. *)

From Stdlib Require Import ZArith List Bool Lia.
Import ListNotations.
Local Open Scope Z_scope.

Set Implicit Arguments.

(** ** Fixed-width unsigned arithmetic *)

Definition uint8 (z : Z) : Z := z mod 2 ^ 8.
Definition uint16 (z : Z) : Z := z mod 2 ^ 16.
Definition uint32 (z : Z) : Z := z mod 2 ^ 32.

(** [uint32_t] operands: [a << n], [a + b] and [a * b] wrap modulo 2^32. *)
Definition shl32 (a n : Z) : Z := uint32 (Z.shiftl a n).
Definition add32 (a b : Z) : Z := uint32 (a + b).
Definition mul32 (a b : Z) : Z := uint32 (a * b).

(** ** Device header

    The bit positions come from the device header of the ATtiny13 that
    [wiring_private.h] pulls in ([avr/io.h]); they are not part of
    [wiring.c] itself. *)

Module Device.
(** [_BV(bit)] is [1 << bit]. *)
Definition _BV (bit : Z) : Z := Z.shiftl 1 bit.

(** Clock select bits of [TCCR0B]. *)
Definition CS00 : Z := 0.
Definition CS01 : Z := 1.
Definition CS02 : Z := 2.

(** Timer0 overflow interrupt enable bit of [TIMSK0]. *)
Definition TOIE0 : Z := 1.

(** Timer0 overflow flag bit of [TIFR0]. *)
Definition TOV0 : Z := 1.

(** Global interrupt enable bit of [SREG]. *)
Definition SREG_I : Z := 7.

(** The divisor the timer0 prescaler applies for the clock select bits
    [CS02:CS00] of a [TCCR0B] value ([None]: timer stopped or clocked
    from the T0 pin).  The comments in [init] name the two divisors the
    code selects: [F_CPU/64] and [F_CPU/8]. *)
Definition clock_divisor (tccr0b : Z) : option Z :=
  let cs := Z.land tccr0b 7 in
  if cs =? 1 then Some 1
  else if cs =? 2 then Some 8
  else if cs =? 3 then Some 64
  else if cs =? 4 then Some 256
  else if cs =? 5 then Some 1024
  else None.
End Device.
Import Device.

(** ** Machine state *)

(** The registers [wiring.c] touches, its one global variable, and the
    timer0 flag register, through which the hardware requests the overflow
    interrupt. *)
Record machine : Type := Machine {
  SREG : Z;             (* status register, bit 7 = global interrupt enable *)
  TCNT0 : Z;            (* timer0 count register *)
  TCCR0B : Z;           (* timer0 control register B (prescaler) *)
  TIMSK0 : Z;           (* timer0 interrupt mask *)
  TIFR0 : Z;            (* timer0 interrupt flags *)
  timer0_overflow : Z   (* volatile uint32_t timer0_overflow *)
}.

Definition set_SREG (v : Z) (s : machine) : machine :=
  Machine v (TCNT0 s) (TCCR0B s) (TIMSK0 s) (TIFR0 s) (timer0_overflow s).
Definition set_TCNT0 (v : Z) (s : machine) : machine :=
  Machine (SREG s) v (TCCR0B s) (TIMSK0 s) (TIFR0 s) (timer0_overflow s).
Definition set_TCCR0B (v : Z) (s : machine) : machine :=
  Machine (SREG s) (TCNT0 s) v (TIMSK0 s) (TIFR0 s) (timer0_overflow s).
Definition set_TIMSK0 (v : Z) (s : machine) : machine :=
  Machine (SREG s) (TCNT0 s) (TCCR0B s) v (TIFR0 s) (timer0_overflow s).
Definition set_TIFR0 (v : Z) (s : machine) : machine :=
  Machine (SREG s) (TCNT0 s) (TCCR0B s) (TIMSK0 s) v (timer0_overflow s).
Definition set_timer0_overflow (v : Z) (s : machine) : machine :=
  Machine (SREG s) (TCNT0 s) (TCCR0B s) (TIMSK0 s) (TIFR0 s) v.

(** Whether interrupts are globally enabled. *)
Definition interrupts_on (s : machine) : bool := Z.testbit (SREG s) SREG_I.

(** ** Atomic accesses and programs *)

Inductive op : Type :=
| ld_SREG
| st_SREG (v : Z)
| ld_TCNT0
| st_TCNT0 (v : Z)
| st_TCCR0B (v : Z)
| st_TIMSK0 (v : Z)
| ld_timer0_overflow
| st_timer0_overflow (v : Z)
| op_cli
| op_sei
| busy_wait_ms (n : Z).

(** What one access returns and does to the machine.  A store returns 0.
    The busy-wait primitive spends time and changes nothing. *)
Definition exec (o : op) (s : machine) : Z * machine :=
  match o with
  | ld_SREG => (SREG s, s)
  | st_SREG v => (0, set_SREG v s)
  | ld_TCNT0 => (TCNT0 s, s)
  | st_TCNT0 v => (0, set_TCNT0 v s)
  | st_TCCR0B v => (0, set_TCCR0B v s)
  | st_TIMSK0 v => (0, set_TIMSK0 v s)
  | ld_timer0_overflow => (timer0_overflow s, s)
  | st_timer0_overflow v => (0, set_timer0_overflow v s)
  | op_cli => (0, set_SREG (Z.clearbit (SREG s) SREG_I) s)
  | op_sei => (0, set_SREG (Z.setbit (SREG s) SREG_I) s)
  | busy_wait_ms _ => (0, s)
  end.

(** A program is a tree of accesses ending in a result. *)
Inductive prog (A : Type) : Type :=
| Ret (a : A)
| Do (o : op) (k : Z -> prog A).

Arguments Ret {A} a.
Arguments Do {A} o k.

Fixpoint bind {A B : Type} (p : prog A) (f : A -> prog B) : prog B :=
  match p with
  | Ret a => f a
  | Do o k => Do o (fun v => bind (k v) f)
  end.

Declare Scope prog_scope.
Delimit Scope prog_scope with prog.
Notation "x <- p ;; q" := (bind p (fun x => q))
  (at level 61, p at next level, right associativity) : prog_scope.
Notation "p ;; q" := (bind p (fun _ => q))
  (at level 61, right associativity) : prog_scope.
Local Open Scope prog_scope.

Definition rd_SREG : prog Z := Do ld_SREG Ret.
Definition wr_SREG (v : Z) : prog unit := Do (st_SREG v) (fun _ => Ret tt).
Definition rd_TCNT0 : prog Z := Do ld_TCNT0 Ret.
Definition wr_TCNT0 (v : Z) : prog unit := Do (st_TCNT0 v) (fun _ => Ret tt).
Definition wr_TCCR0B (v : Z) : prog unit := Do (st_TCCR0B v) (fun _ => Ret tt).
Definition wr_TIMSK0 (v : Z) : prog unit := Do (st_TIMSK0 v) (fun _ => Ret tt).
Definition rd_timer0_overflow : prog Z := Do ld_timer0_overflow Ret.
Definition wr_timer0_overflow (v : Z) : prog unit :=
  Do (st_timer0_overflow v) (fun _ => Ret tt).
Definition cli : prog unit := Do op_cli (fun _ => Ret tt).
Definition sei : prog unit := Do op_sei (fun _ => Ret tt).
Definition _delay_ms (n : Z) : prog unit := Do (busy_wait_ms n) (fun _ => Ret tt).

(** ** The functions of [wiring.c] *)

(** [ISR(TIM0_OVF_vect) { timer0_overflow++; }] *)
Definition TIM0_OVF_vect : prog unit :=
  v <- rd_timer0_overflow ;;
  wr_timer0_overflow (add32 v 1).

(** [uint32_t micros()].  [F_CPU] is the build's CPU frequency in Hz.  The
    chain of [#if F_CPU == ...] has no [#else]: for any other frequency the
    function has no [return] statement, which is [None] here. *)
Definition micros (F_CPU : Z) : prog (option Z) :=
  oldSREG <- rd_SREG ;;
  t <- rd_TCNT0 ;;
  cli ;;
  x <- rd_timer0_overflow ;;
  wr_SREG oldSREG ;;
  if F_CPU =? 20000000 then Ret (Some (mul32 (add32 (shl32 x 8) t) 3))
  else if F_CPU =? 16000000 then Ret (Some (mul32 (add32 (shl32 x 8) t) 4))
  else if F_CPU =? 12000000 then Ret (Some (mul32 (add32 (shl32 x 8) t) 5))
  else if F_CPU =? 9600000 then Ret (Some (mul32 (add32 (shl32 x 8) t) 7))
  else if F_CPU =? 8000000 then Ret (Some (mul32 (add32 (shl32 x 8) t) 8))
  else if F_CPU =? 4800000 then Ret (Some (mul32 (add32 (shl32 x 8) t) 13))
  else if F_CPU =? 1200000 then Ret (Some (mul32 (add32 (shl32 x 8) t) 7))
  else if F_CPU =? 1000000 then Ret (Some (mul32 (add32 (shl32 x 8) t) 8))
  else if F_CPU =? 600000 then Ret (Some (mul32 (add32 (shl32 x 8) t) 13))
  else if F_CPU =? 128000 then Ret (Some (mul32 (add32 (shl32 x 8) t) 62))
  else Ret None.

(** [void delay(uint16_t ms) { while(ms--) _delay_ms(1); }].  [fuel] bounds
    the number of loop tests; [None] means the bound was reached before the
    loop ended. *)
Fixpoint delay (fuel : nat) (ms : Z) : prog (option unit) :=
  match fuel with
  | O => Ret None
  | S fuel' =>
      let tested := ms in
      let ms := uint16 (ms - 1) in
      if tested =? 0 then Ret (Some tt)
      else _delay_ms 1 ;; delay fuel' ms
  end.

(** [void init()].  [ENABLE_MICROS] tells whether the build defines the
    macro of that name. *)
Definition init (ENABLE_MICROS : bool) (F_CPU : Z) : prog unit :=
  (if ENABLE_MICROS then
     (if F_CPU >=? 4800000
      then wr_TCCR0B (uint8 (Z.lor (_BV CS00) (_BV CS01)))
      else wr_TCCR0B (uint8 (_BV CS01))) ;;
     wr_TIMSK0 (uint8 (_BV TOIE0)) ;;
     wr_TCNT0 (uint8 0)
   else Ret tt) ;;
  sei.

(** ** Running a program *)

(** An access as it was made, with the global interrupt flag at that
    moment. *)
Definition event : Type := (op * bool)%type.

Record outcome (A : Type) : Type := Outcome {
  result : A;
  final : machine;
  trace : list event
}.

(** Uninterrupted execution. *)
Fixpoint run {A : Type} (p : prog A) (s : machine) : outcome A :=
  match p with
  | Ret a => Outcome a s []
  | Do o k =>
      let r := run (k (fst (exec o s))) (snd (exec o s)) in
      Outcome (result r) (final r) ((o, interrupts_on s) :: trace r)
  end.

(** ** The timer0 overflow interrupt *)

(** A timer overflow: the count register wraps from its maximum back to
    zero and the hardware raises the overflow flag [TOV0]. *)
Definition timer0_wraps (s : machine) : machine :=
  set_TIFR0 (Z.setbit (TIFR0 s) TOV0) (set_TCNT0 0 s).

(** The overflow interrupt can be taken only when interrupts are globally
    enabled and the overflow interrupt is unmasked. *)
Definition overflow_irq_enabled (s : machine) : bool :=
  interrupts_on s && Z.testbit (TIMSK0 s) TOIE0.

(** Servicing a raised flag, when enabled: the hardware clears the flag and
    the global interrupt flag, the handler runs to completion, and the
    return from interrupt sets the global flag again.  Otherwise the flag
    stays as it is. *)
Definition service (s : machine) : machine * list event :=
  if overflow_irq_enabled s && Z.testbit (TIFR0 s) TOV0 then
    let r := run TIM0_OVF_vect
                 (set_TIFR0 (Z.clearbit (TIFR0 s) TOV0)
                    (set_SREG (Z.clearbit (SREG s) SREG_I) s)) in
    (set_SREG (Z.setbit (SREG (final r)) SREG_I) (final r), trace r)
  else (s, []).

(** Execution with timer overflows.  [overflows] says, for each access of
    the program in turn and then for its return, whether the timer wraps
    just before it.  A raised flag is serviced before the next access at
    which the interrupt is enabled. *)
Fixpoint run_irq {A : Type} (overflows : list bool) (p : prog A) (s : machine)
  : outcome A :=
  let s0 := match overflows with
            | true :: _ => timer0_wraps s
            | _ => s
            end in
  let s1 := fst (service s0) in
  let isr := snd (service s0) in
  match p with
  | Ret a => Outcome a s1 isr
  | Do o k =>
      let r := run_irq (tl overflows) (k (fst (exec o s1))) (snd (exec o s1)) in
      Outcome (result r) (final r) (isr ++ (o, interrupts_on s1) :: trace r)
  end.

(** The tick count a [(tally, live count)] snapshot stands for. *)
Definition elapsed_ticks (s : machine) : Z :=
  timer0_overflow s * 256 + TCNT0 s.

(** ** The design document's Conversion Constant *)

(** The enumerated mapping of the design document, from CPU frequency in Hz
    to the integer multiplier, as the document lists it. *)
Definition Conversion_Constant_table : list (Z * Z) :=
  [ (20000000, 3); (16000000, 4); (12000000, 5); (9600000, 7); (8000000, 8);
    (4800000, 13); (1200000, 7); (1000000, 8); (600000, 13); (128000, 62) ].

Fixpoint lookup (F : Z) (tbl : list (Z * Z)) : option Z :=
  match tbl with
  | [] => None
  | (f, k) :: tbl' => if F =? f then Some k else lookup F tbl'
  end.

Definition Conversion_Constant (F_CPU : Z) : option Z :=
  lookup F_CPU Conversion_Constant_table.

(** The machine at reset: the registers at their reset value 0 and
    [timer0_overflow] at its static initial value 0. *)
Definition power_on : machine := Machine 0 0 0 0 0 0.

(** The divisor [init] programs into timer0 for a CPU frequency. *)
Definition timer0_prescaler (F_CPU : Z) : option Z :=
  clock_divisor (TCCR0B (final (run (init true F_CPU) power_on))).

(** [k] is an integer nearest to [P / (F / 10^6)]: no integer [m] is
    closer. *)
Definition nearest_integer (k P F : Z) : Prop :=
  forall m : Z, Z.abs (k * F - P * 1000000) <= Z.abs (m * F - P * 1000000).

(** ** Composed runs *)

(** The frequencies the [#if] chain of [micros] tests for, in its order. *)
Definition supported_frequencies : list Z :=
  [ 20000000; 16000000; 12000000; 9600000; 8000000;
    4800000; 1200000; 1000000; 600000; 128000 ].

(** One timer overflow in mainline code: the timer wraps and the interrupt
    is serviced if it is enabled. *)
Definition overflow_serviced (s : machine) : machine :=
  fst (service (timer0_wraps s)).

(** [n] timer overflows one after the other. *)
Definition overflows (n : nat) (s : machine) : machine :=
  Nat.iter n overflow_serviced s.

(** [n] executions of the overflow handler. *)
Definition handler_runs (n : nat) (s : machine) : machine :=
  Nat.iter n (fun s' => final (run TIM0_OVF_vect s')) s.

(** Events of the busy-wait primitive, and stores of the handler. *)
Definition is_busy_wait (ev : event) : bool :=
  match fst ev with
  | busy_wait_ms _ => true
  | _ => false
  end.

Definition is_handler_store (ev : event) : bool :=
  match fst ev with
  | st_timer0_overflow _ => true
  | _ => false
  end.

(** The number of timer wraps an overflow schedule holds in its first [n]
    places. *)
Definition wraps_within (n : nat) (overflows : list bool) : nat :=
  length (filter (fun b : bool => b) (firstn n overflows)).

(** The schedule with one timer wrap, just before place [i] (counted
    from 0). *)
Definition single_overflow (i : nat) : list bool := repeat false i ++ [true].

(** ** Basic facts *)

Lemma set_SREG_restore (v : Z) (s : machine) :
  set_SREG (SREG s) (set_SREG v s) = s.
Proof. destruct s; reflexivity. Qed.

Lemma interrupts_on_cli (s : machine) :
  interrupts_on (set_SREG (Z.clearbit (SREG s) SREG_I) s) = false.
Proof.
  unfold interrupts_on, set_SREG; simpl SREG.
  apply Z.clearbit_eq.
Qed.

Lemma interrupts_on_sei (s : machine) :
  interrupts_on (set_SREG (Z.setbit (SREG s) SREG_I) s) = true.
Proof.
  unfold interrupts_on, set_SREG; simpl SREG.
  apply Z.setbit_eq. unfold SREG_I; lia.
Qed.

(** Setting a bit that was set before being cleared gives the value back. *)
Lemma setbit_clearbit_set (a n : Z) :
  0 <= n -> Z.testbit a n = true -> Z.setbit (Z.clearbit a n) n = a.
Proof.
  intros Hn Ha. apply Z.bits_inj'. intros m Hm.
  destruct (Z.eq_dec m n) as [->|Hne].
  - rewrite Z.setbit_eq by assumption. symmetry; assumption.
  - rewrite Z.setbit_neq by lia. apply Z.clearbit_neq; lia.
Qed.

(** Clearing a bit that was clear before being set gives the value back. *)
Lemma clearbit_setbit_clear (a n : Z) :
  0 <= n -> Z.testbit a n = false -> Z.clearbit (Z.setbit a n) n = a.
Proof.
  intros Hn Ha. apply Z.bits_inj'. intros m Hm.
  destruct (Z.eq_dec m n) as [->|Hne].
  - rewrite Z.clearbit_eq. symmetry; assumption.
  - rewrite Z.clearbit_neq by lia. apply Z.setbit_neq; lia.
Qed.

Lemma run_bind {A B : Type} (p : prog A) (f : A -> prog B) (s : machine) :
  run (bind p f) s =
  Outcome (result (run (f (result (run p s))) (final (run p s))))
          (final (run (f (result (run p s))) (final (run p s))))
          (trace (run p s) ++ trace (run (f (result (run p s))) (final (run p s)))).
Proof.
  revert s. induction p as [a | o k IH]; intros s; simpl.
  - destruct (run (f a) s); reflexivity.
  - rewrite IH. reflexivity.
Qed.

(** The 32-bit expression of [micros] is the product with the tick count,
    reduced modulo 2^32 once. *)
Lemma scaled_ticks (x t k : Z) :
  mul32 (add32 (shl32 x 8) t) k = uint32 (k * (x * 256 + t)).
Proof.
  unfold mul32, add32, shl32, uint32.
  rewrite Z.shiftl_mul_pow2 by lia.
  rewrite Zplus_mod_idemp_l, Zmult_mod_idemp_l.
  f_equal. change (2 ^ 8) with 256. ring.
Qed.

(** A tally reduced to 32 bits scales like the unreduced one. *)
Lemma uint32_scaled_tally (k a t : Z) :
  uint32 (k * (uint32 a * 256 + t)) = uint32 (k * (a * 256 + t)).
Proof.
  unfold uint32.
  replace (k * (a mod 2 ^ 32 * 256 + t))
    with (a mod 2 ^ 32 * (256 * k) + k * t) by ring.
  rewrite <- Zplus_mod_idemp_l, Zmult_mod_idemp_l, Zplus_mod_idemp_l.
  f_equal. ring.
Qed.

(** Reduction modulo [M] keeps the order of two numbers with the same
    quotient by [M]. *)
Lemma mod_le_same_quotient (a b M : Z) :
  0 < M -> a <= b -> a / M = b / M -> a mod M <= b mod M.
Proof.
  intros HM Hab Hq.
  pose proof (Z.div_mod a M ltac:(lia)) as Ha.
  pose proof (Z.div_mod b M ltac:(lia)) as Hb.
  rewrite Hq in Ha. lia.
Qed.

(** Order of two readings whose scaled tick counts have the same quotient
    by 2^32. *)
Lemma scaled_le (k T1 T2 : Z) :
  0 < k -> T1 <= T2 ->
  k * T1 / 2 ^ 32 = k * T2 / 2 ^ 32 ->
  uint32 (k * T1) <= uint32 (k * T2).
Proof.
  intros Hk HT Hq. unfold uint32.
  apply mod_le_same_quotient; [lia | nia | exact Hq].
Qed.

Lemma Conversion_Constant_cases (F k : Z) :
  Conversion_Constant F = Some k ->
  In (F, k) Conversion_Constant_table.
Proof.
  unfold Conversion_Constant, Conversion_Constant_table; simpl.
  repeat match goal with
         | |- context [F =? ?c] =>
             destruct (Z.eqb_spec F c) as [->|_];
             [ intros [= <-]; simpl; tauto | ]
         end.
  discriminate.
Qed.

Lemma Conversion_Constant_pos (F k : Z) :
  Conversion_Constant F = Some k -> 0 < k.
Proof.
  intros H. apply Conversion_Constant_cases in H. simpl in H.
  repeat (destruct H as [[= <- <-] | H]; [lia | ]). contradiction.
Qed.

(** The [#if] chain that ends [micros], once tally [x] and live count [t]
    have been read, returns the product with the Conversion Constant of
    the build frequency, and nothing for a frequency outside the table. *)
Lemma micros_tail (F x t : Z) :
  (if F =? 20000000 then Ret (Some (mul32 (add32 (shl32 x 8) t) 3))
   else if F =? 16000000 then Ret (Some (mul32 (add32 (shl32 x 8) t) 4))
   else if F =? 12000000 then Ret (Some (mul32 (add32 (shl32 x 8) t) 5))
   else if F =? 9600000 then Ret (Some (mul32 (add32 (shl32 x 8) t) 7))
   else if F =? 8000000 then Ret (Some (mul32 (add32 (shl32 x 8) t) 8))
   else if F =? 4800000 then Ret (Some (mul32 (add32 (shl32 x 8) t) 13))
   else if F =? 1200000 then Ret (Some (mul32 (add32 (shl32 x 8) t) 7))
   else if F =? 1000000 then Ret (Some (mul32 (add32 (shl32 x 8) t) 8))
   else if F =? 600000 then Ret (Some (mul32 (add32 (shl32 x 8) t) 13))
   else if F =? 128000 then Ret (Some (mul32 (add32 (shl32 x 8) t) 62))
   else Ret None) =
  Ret (option_map (mul32 (add32 (shl32 x 8) t)) (Conversion_Constant F)).
Proof.
  unfold Conversion_Constant, Conversion_Constant_table. cbn [lookup].
  repeat match goal with
         | |- context [F =? ?c] => destruct (F =? c)
         end;
    reflexivity.
Qed.

(** What an uninterrupted call of [micros] does, for every build frequency
    and every machine state. *)
Lemma run_micros (F : Z) (s : machine) :
  run (micros F) s =
  Outcome
    (option_map (mul32 (add32 (shl32 (timer0_overflow s) 8) (TCNT0 s)))
                (Conversion_Constant F))
    s
    [ (ld_SREG, interrupts_on s); (ld_TCNT0, interrupts_on s);
      (op_cli, interrupts_on s); (ld_timer0_overflow, false);
      (st_SREG (SREG s), false) ].
Proof.
  destruct s as [sreg tcnt tccr timsk tifr ovf].
  pose proof (interrupts_on_cli (Machine sreg tcnt tccr timsk tifr ovf)) as Hcli.
  unfold set_SREG in Hcli.
  cbn [SREG TCNT0 TCCR0B TIMSK0 TIFR0 timer0_overflow] in Hcli.
  unfold micros.
  cbn [bind rd_SREG rd_TCNT0 cli rd_timer0_overflow wr_SREG run exec fst snd].
  unfold set_SREG; cbn [SREG TCNT0 TCCR0B TIMSK0 TIFR0 timer0_overflow].
  rewrite micros_tail, Hcli. reflexivity.
Qed.

(** The handler adds one to the counter and touches nothing else. *)
Lemma run_TIM0_OVF_vect (s : machine) :
  run TIM0_OVF_vect s =
  Outcome tt
    (Machine (SREG s) (TCNT0 s) (TCCR0B s) (TIMSK0 s) (TIFR0 s)
             (uint32 (timer0_overflow s + 1)))
    [ (ld_timer0_overflow, interrupts_on s);
      (st_timer0_overflow (uint32 (timer0_overflow s + 1)), interrupts_on s) ].
Proof. reflexivity. Qed.

(** ** Interrupted execution *)

Lemma service_idle (s : machine) :
  overflow_irq_enabled s && Z.testbit (TIFR0 s) TOV0 = false ->
  service s = (s, []).
Proof. intros H. unfold service. rewrite H. reflexivity. Qed.

(** A serviced overflow leaves the interrupted context with one more
    overflow counted, the flag cleared, and everything else as it was. *)
Lemma service_pending (s : machine) :
  overflow_irq_enabled s = true ->
  Z.testbit (TIFR0 s) TOV0 = true ->
  service s =
  (Machine (SREG s) (TCNT0 s) (TCCR0B s) (TIMSK0 s)
           (Z.clearbit (TIFR0 s) TOV0) (add32 (timer0_overflow s) 1),
   [ (ld_timer0_overflow, false);
     (st_timer0_overflow (add32 (timer0_overflow s) 1), false) ]).
Proof.
  intros Hen Hflag. unfold service. rewrite Hen, Hflag. cbn [andb].
  apply andb_prop in Hen. destruct Hen as [HI _].
  rewrite run_TIM0_OVF_vect. cbn [final trace].
  destruct s as [sreg tcnt tccr timsk tifr ovf].
  unfold interrupts_on in *.
  unfold set_SREG, set_TIFR0, add32;
    cbn [SREG TCNT0 TCCR0B TIMSK0 TIFR0 timer0_overflow] in *.
  rewrite Z.clearbit_eq.
  rewrite setbit_clearbit_set by (assumption || (unfold SREG_I; lia)).
  reflexivity.
Qed.

Lemma run_irq_Do {A : Type} (ov : list bool) (o : op) (k : Z -> prog A)
      (s s1 : machine) (isr : list event) :
  service (match ov with true :: _ => timer0_wraps s | _ => s end) = (s1, isr) ->
  run_irq ov (Do o k) s =
  Outcome (result (run_irq (tl ov) (k (fst (exec o s1))) (snd (exec o s1))))
          (final (run_irq (tl ov) (k (fst (exec o s1))) (snd (exec o s1))))
          (isr ++ (o, interrupts_on s1)
               :: trace (run_irq (tl ov) (k (fst (exec o s1))) (snd (exec o s1)))).
Proof. intros H. cbn [run_irq]. rewrite H. reflexivity. Qed.

Lemma run_irq_Ret {A : Type} (ov : list bool) (a : A)
      (s s1 : machine) (isr : list event) :
  service (match ov with true :: _ => timer0_wraps s | _ => s end) = (s1, isr) ->
  run_irq ov (Ret a) s = Outcome a s1 isr.
Proof. intros H. cbn [run_irq]. rewrite H. reflexivity. Qed.

Section MicrosRace.
Variables (F sreg tcnt tccr timsk tifr ovf : Z).
Hypothesis HI : Z.testbit sreg SREG_I = true.
Hypothesis HM : Z.testbit timsk TOIE0 = true.
Hypothesis HT : Z.testbit tifr TOV0 = false.

Local Ltac machine_bits :=
  unfold timer0_wraps, overflow_irq_enabled, interrupts_on,
    set_SREG, set_TCNT0, set_TIFR0;
  cbn [SREG TCNT0 TCCR0B TIMSK0 TIFR0 timer0_overflow tl exec fst snd];
  rewrite ?Z.clearbit_eq, ?HI, ?HM, ?HT, ?Z.setbit_eq by (unfold TOV0; lia).

Local Ltac idle := apply service_idle; machine_bits; reflexivity.

Local Ltac step :=
  first [ erewrite run_irq_Do by idle | erewrite run_irq_Ret by idle ];
  cbn [tl exec fst snd result final trace app];
  unfold set_SREG; cbn [SREG TCNT0 TCCR0B TIMSK0 TIFR0 timer0_overflow].

Lemma service_wrap :
  service (timer0_wraps (Machine sreg tcnt tccr timsk tifr ovf)) =
  (Machine sreg 0 tccr timsk tifr (add32 ovf 1),
   [ (ld_timer0_overflow, false);
     (st_timer0_overflow (add32 ovf 1), false) ]).
Proof.
  rewrite service_pending.
  - unfold timer0_wraps, set_TIFR0, set_TCNT0.
    cbn [SREG TCNT0 TCCR0B TIMSK0 TIFR0 timer0_overflow].
    rewrite clearbit_setbit_clear by (assumption || (unfold TOV0; lia)).
    reflexivity.
  - machine_bits. reflexivity.
  - machine_bits. reflexivity.
Qed.

(** The timer wraps after the count register was read and before [cli]:
    the handler runs there, the tally read is one more than on entry. *)
Lemma run_irq_micros_early :
  run_irq [false; false; true] (micros F)
          (Machine sreg tcnt tccr timsk tifr ovf) =
  Outcome
    (option_map (mul32 (add32 (shl32 (add32 ovf 1) 8) tcnt))
                (Conversion_Constant F))
    (Machine sreg 0 tccr timsk tifr (add32 ovf 1))
    [ (ld_SREG, true); (ld_TCNT0, true);
      (ld_timer0_overflow, false);
      (st_timer0_overflow (add32 ovf 1), false);
      (op_cli, true); (ld_timer0_overflow, false);
      (st_SREG sreg, false) ].
Proof.
  unfold micros.
  cbn [bind rd_SREG rd_TCNT0 cli rd_timer0_overflow wr_SREG].
  do 2 step.
  erewrite run_irq_Do by (exact service_wrap).
  cbn [tl exec fst snd result final trace app].
  unfold set_SREG; cbn [SREG TCNT0 TCCR0B TIMSK0 TIFR0 timer0_overflow].
  do 2 step. rewrite micros_tail. step.
  machine_bits. reflexivity.
Qed.

(** The timer wraps after [cli] and before the tally is read: the flag
    waits, the tally read is the one on entry, and the handler runs once
    the status register has been restored. *)
Lemma run_irq_micros_late :
  run_irq [false; false; false; true] (micros F)
          (Machine sreg tcnt tccr timsk tifr ovf) =
  Outcome
    (option_map (mul32 (add32 (shl32 ovf 8) tcnt)) (Conversion_Constant F))
    (Machine sreg 0 tccr timsk tifr (add32 ovf 1))
    [ (ld_SREG, true); (ld_TCNT0, true); (op_cli, true);
      (ld_timer0_overflow, false); (st_SREG sreg, false);
      (ld_timer0_overflow, false);
      (st_timer0_overflow (add32 ovf 1), false) ].
Proof.
  unfold micros.
  cbn [bind rd_SREG rd_TCNT0 cli rd_timer0_overflow wr_SREG].
  do 5 step. rewrite micros_tail.
  erewrite run_irq_Ret by (exact service_wrap).
  machine_bits. reflexivity.
Qed.
End MicrosRace.

(** ** [init] and [delay] *)

(** [init] in a build that defines [ENABLE_MICROS]. *)
Lemma run_init_enabled (F : Z) (s : machine) :
  run (init true F) s =
  Outcome tt
    (Machine (Z.setbit (SREG s) SREG_I) 0
             (if F >=? 4800000 then Z.lor (_BV CS00) (_BV CS01) else _BV CS01)
             (_BV TOIE0) (TIFR0 s) (timer0_overflow s))
    [ (st_TCCR0B
         (if F >=? 4800000 then Z.lor (_BV CS00) (_BV CS01) else _BV CS01),
       interrupts_on s);
      (st_TIMSK0 (_BV TOIE0), interrupts_on s);
      (st_TCNT0 0, interrupts_on s);
      (op_sei, interrupts_on s) ].
Proof.
  destruct s as [sreg tcnt tccr timsk tifr ovf].
  unfold init. destruct (F >=? 4800000); reflexivity.
Qed.

(** [init] in a build that does not define it. *)
Lemma run_init_disabled (F : Z) (s : machine) :
  run (init false F) s =
  Outcome tt (set_SREG (Z.setbit (SREG s) SREG_I) s) [ (op_sei, interrupts_on s) ].
Proof. reflexivity. Qed.

(** The loop of [delay]: with the counter in [uint16_t] range and more
    fuel than its value, the loop ends after that many waits. *)
Lemma run_delay (fuel : nat) :
  forall (ms : Z) (s : machine),
    0 <= ms < 2 ^ 16 ->
    (Z.to_nat ms < fuel)%nat ->
    run (delay fuel ms) s =
    Outcome (Some tt) s (repeat (busy_wait_ms 1, interrupts_on s) (Z.to_nat ms)).
Proof.
  induction fuel as [|fuel IH]; intros ms s Hms Hfuel; [lia|].
  cbn [delay].
  destruct (Z.eqb_spec ms 0) as [->|Hnz].
  - reflexivity.
  - assert (Hdec : uint16 (ms - 1) = ms - 1)
      by (unfold uint16; apply Z.mod_small; lia).
    rewrite Hdec.
    cbn [bind _delay_ms run exec fst snd result final trace].
    rewrite IH by lia.
    cbn [result final trace].
    replace (Z.to_nat ms) with (S (Z.to_nat (ms - 1))) by lia.
    reflexivity.
Qed.

(** The frequencies for which [micros] returns a value are those of the
    table. *)
Lemma micros_supported_iff (F : Z) (s : machine) :
  result (run (micros F) s) <> None <->
  exists k, In (F, k) Conversion_Constant_table.
Proof.
  rewrite run_micros. cbn [result].
  destruct (Conversion_Constant F) as [k|] eqn:HF; cbn [option_map].
  - split; [intros _ | discriminate].
    exists k. apply Conversion_Constant_cases; exact HF.
  - split; [congruence | intros [k Hin]; exfalso].
    revert HF. unfold Conversion_Constant.
    simpl in Hin.
    repeat (destruct Hin as [[= <- <-] | Hin]; [discriminate | ]).
    contradiction.
Qed.

(** ** The overflow handler *)

(** C7.  Each execution of the overflow interrupt handler increments the
    overflow tally by exactly one, as a 32-bit unsigned value, and leaves
    every register unchanged; it makes two accesses, both to the tally. *)
Theorem TIM0_OVF_vect_increments_tally :
  forall s : machine,
    final (run TIM0_OVF_vect s) =
      Machine (SREG s) (TCNT0 s) (TCCR0B s) (TIMSK0 s) (TIFR0 s)
              ((timer0_overflow s + 1) mod 2 ^ 32)
    /\ map fst (trace (run TIM0_OVF_vect s)) =
       [ ld_timer0_overflow;
         st_timer0_overflow ((timer0_overflow s + 1) mod 2 ^ 32) ].
Proof.
  intros s. rewrite run_TIM0_OVF_vect. split; reflexivity.
Qed.

(** ** Reading microseconds *)

(** C1.  An uninterrupted call of [micros] makes exactly these accesses in
    this order: it reads [SREG], reads the live count [TCNT0] with the
    interrupt flag still as on entry, disables interrupts, reads the
    overflow tally with interrupts disabled, and writes the saved [SREG]
    back.  For a frequency with Conversion Constant [k] it returns
    [((tally << 8) + live_count) * k] in 32-bit unsigned arithmetic. *)
Theorem micros_follows_algorithm :
  forall (F : Z) (s : machine),
    trace (run (micros F) s) =
      [ (ld_SREG, interrupts_on s);
        (ld_TCNT0, interrupts_on s);
        (op_cli, interrupts_on s);
        (ld_timer0_overflow, false);
        (st_SREG (SREG s), false) ]
    /\ result (run (micros F) s) =
       option_map
         (fun k => mul32 (add32 (shl32 (timer0_overflow s) 8) (TCNT0 s)) k)
         (Conversion_Constant F)
    /\ SREG (final (run (micros F) s)) = SREG s.
Proof.
  intros F s. rewrite run_micros. cbn [trace result final].
  repeat split.
Qed.

(** C2.  For every entry [(F, k)] of the Conversion Constant table,
    [micros] built for [F] multiplies the tick count by [k], and [k] is an
    integer nearest to the quotient of the prescaler [init] selects for [F]
    by the frequency in MHz.  At 16 MHz a tick count of 1000 (tally 3, live
    count 232) reads 4000 microseconds. *)
Theorem Conversion_Constant_table_used :
  Forall
    (fun fk : Z * Z =>
       (forall s : machine,
           result (run (micros (fst fk)) s) =
           Some (mul32 (add32 (shl32 (timer0_overflow s) 8) (TCNT0 s)) (snd fk)))
       /\ exists P : Z,
           timer0_prescaler (fst fk) = Some P
           /\ nearest_integer (snd fk) P (fst fk))
    Conversion_Constant_table
  /\ (forall sreg tccr timsk tifr : Z,
         elapsed_ticks (Machine sreg 232 tccr timsk tifr 3) = 1000
         /\ result (run (micros 16000000) (Machine sreg 232 tccr timsk tifr 3))
            = Some (1000 * 4)).
Proof.
  split.
  - unfold Conversion_Constant_table.
    repeat apply Forall_cons; try apply Forall_nil;
      (split;
       [ intros s; rewrite run_micros; reflexivity
       | eexists; split;
         [ reflexivity
         | unfold nearest_integer; cbn [fst snd]; intros m; lia ] ]).
  - intros sreg tccr timsk tifr. split; [reflexivity|].
    rewrite run_micros. reflexivity.
Qed.

(** C4.  Monotonicity over snapshots.  For a supported frequency with
    Conversion Constant [k] and two snapshots whose tick counts
    [tally * 256 + count] are ordered, the reading of the first is at most
    the reading of the second, provided no wraparound of the 32-bit result
    lies between them (the scaled tick counts have the same quotient by
    2^32). *)
Theorem micros_monotone_until_wraparound
  (F k : Z) (s1 s2 : machine) (r1 r2 : Z)
  (HF : Conversion_Constant F = Some k)
  (H1 : result (run (micros F) s1) = Some r1)
  (H2 : result (run (micros F) s2) = Some r2)
  (Hle : elapsed_ticks s1 <= elapsed_ticks s2)
  (Hepoch : k * elapsed_ticks s1 / 2 ^ 32 = k * elapsed_ticks s2 / 2 ^ 32) :
  r1 <= r2.
Proof.
  rewrite run_micros in H1, H2. cbn [result] in H1, H2.
  rewrite HF in H1, H2. cbn [option_map] in H1, H2.
  rewrite scaled_ticks in H1, H2.
  injection H1 as <-. injection H2 as <-.
  apply scaled_le; try assumption.
  eapply Conversion_Constant_pos; eassumption.
Qed.

(** C4, at a concrete pair of snapshots. *)
Lemma micros_monotone_until_wraparound_witness :
  Conversion_Constant 16000000 = Some 4
  /\ elapsed_ticks (Machine 128 10 3 2 0 1)
     <= elapsed_ticks (Machine 128 20 3 2 0 2)
  /\ 1064 <= 2128.
Proof.
  split; [reflexivity|]. split; [vm_compute; discriminate|].
  apply (@micros_monotone_until_wraparound 16000000 4
           (Machine 128 10 3 2 0 1) (Machine 128 20 3 2 0 2) 1064 2128);
    first [reflexivity | vm_compute; discriminate].
Defined.

(** C10.  [micros] is a pure read: for every build frequency and every
    starting state the machine after the call is the machine before it
    (tally, timer registers and the whole status register), although the
    tally is read with interrupts disabled. *)
Theorem micros_leaves_state :
  forall (F : Z) (s : machine),
    final (run (micros F) s) = s
    /\ SREG (final (run (micros F) s)) = SREG s
    /\ In (op_cli, interrupts_on s) (trace (run (micros F) s))
    /\ In (ld_timer0_overflow, false) (trace (run (micros F) s)).
Proof.
  intros F s. rewrite run_micros. cbn [final trace].
  repeat split; simpl; tauto.
Qed.

(** ** The race with the timer overflow *)



(** ** Initialisation *)

(** C5, as stated, fails in a build that does not define [ENABLE_MICROS]
    (the default): [init] then makes one access, [sei], and writes neither
    the prescaler, nor the interrupt mask, nor the count register. *)
Lemma init_without_micros_only_sei :
  let r := run (init false 16000000) (Machine 0 77 0 0 0 0) in
  map fst (trace r) = [ op_sei ]
  /\ TCCR0B (final r) = 0
  /\ TIMSK0 (final r) = 0
  /\ TCNT0 (final r) = 77
  /\ ~ (exists v : Z, In (st_TCCR0B v) (map fst (trace r))).
Proof.
  cbv zeta. repeat split.
  intros [v [H | []]]. discriminate H.
Qed.

(** C5, amended.  In a build that defines [ENABLE_MICROS], [init] makes
    exactly these accesses in this order: it writes the prescaler bits to
    [TCCR0B] ([CS01|CS00], divisor 64, when [F_CPU >= 4800000]; [CS01],
    divisor 8, for any lower frequency), writes [TOIE0] to [TIMSK0], writes
    0 to [TCNT0], and last executes [sei]; on return interrupts are
    globally enabled and the overflow interrupt is unmasked.  In a build
    that does not define it, [init] only executes [sei]. *)
Theorem init_side_effects :
  forall (F : Z) (s : machine),
    let cs := if F >=? 4800000 then Z.lor (_BV CS00) (_BV CS01) else _BV CS01 in
    trace (run (init true F) s) =
      [ (st_TCCR0B cs, interrupts_on s);
        (st_TIMSK0 (_BV TOIE0), interrupts_on s);
        (st_TCNT0 0, interrupts_on s);
        (op_sei, interrupts_on s) ]
    /\ clock_divisor cs = Some (if F >=? 4800000 then 64 else 8)
    /\ final (run (init true F) s) =
       Machine (Z.setbit (SREG s) SREG_I) 0 cs (_BV TOIE0) (TIFR0 s)
               (timer0_overflow s)
    /\ overflow_irq_enabled (final (run (init true F) s)) = true
    /\ trace (run (init false F) s) = [ (op_sei, interrupts_on s) ]
    /\ final (run (init false F) s) = set_SREG (Z.setbit (SREG s) SREG_I) s
    /\ interrupts_on (final (run (init false F) s)) = true.
Proof.
  intros F s. cbv zeta.
  rewrite run_init_enabled, run_init_disabled. cbn [trace final].
  split; [reflexivity|]. split; [destruct (F >=? 4800000); reflexivity|].
  split; [reflexivity|]. split.
  - unfold overflow_irq_enabled, interrupts_on. cbn [SREG TIMSK0].
    rewrite Z.setbit_eq by (unfold SREG_I; lia). reflexivity.
  - split; [reflexivity|]. split; [reflexivity|]. apply interrupts_on_sei.
Qed.

(** C8, as stated, fails for the overflow tally.  After [init] from reset
    and one serviced timer overflow the tally is 1, and a second [init]
    leaves it at 1. *)
Lemma second_init_keeps_tally :
  let s1 := final (run (init true 16000000) power_on) in
  let s2 := fst (service (timer0_wraps s1)) in
  let s3 := final (run (init true 16000000) s2) in
  timer0_overflow s1 = 0
  /\ timer0_overflow s2 = 1
  /\ timer0_overflow s3 = 1
  /\ ~ (timer0_overflow s3 = 0).
Proof.
  cbv zeta. repeat split. vm_compute. discriminate.
Qed.

(** C8, amended.  A call of [init] in a running system is carried out like
    the first one.  In a build that defines [ENABLE_MICROS] it zeroes the
    count register [TCNT0] and leaves the overflow tally as it is; in a build
    that does not, it changes neither.  Where the count register held a
    nonzero value and the reading had not wrapped, [micros] after the
    second [init] reads strictly less than before it. *)
Theorem second_init_zeroes_count_only :
  forall (F : Z) (s : machine),
    (TCNT0 (final (run (init true F) s)) = 0
     /\ timer0_overflow (final (run (init true F) s)) = timer0_overflow s
     /\ TCNT0 (final (run (init false F) s)) = TCNT0 s
     /\ timer0_overflow (final (run (init false F) s)) = timer0_overflow s)
    /\ (forall k : Z,
           Conversion_Constant F = Some k ->
           0 < TCNT0 s < 256 ->
           0 <= timer0_overflow s ->
           k * elapsed_ticks s < 2 ^ 32 ->
           exists before after : Z,
             result (run (micros F) s) = Some before
             /\ result (run (micros F) (final (run (init true F) s))) = Some after
             /\ after < before).
Proof.
  intros F s. rewrite run_init_enabled, run_init_disabled. cbn [final].
  split; [repeat split|].
  intros k HF Hcount Htally Hnowrap.
  rewrite !run_micros. cbn [result]. rewrite HF. cbn [option_map].
  rewrite !scaled_ticks. cbn [timer0_overflow TCNT0].
  do 2 eexists. split; [reflexivity|]. split; [reflexivity|].
  pose proof (Conversion_Constant_pos _ HF) as Hk.
  unfold elapsed_ticks in Hnowrap. unfold uint32.
  rewrite !Z.mod_small by nia. nia.
Qed.

(** C8 amended, at 16 MHz with tally 1 and live count 7. *)
Lemma second_init_zeroes_count_only_witness :
  Conversion_Constant 16000000 = Some 4
  /\ exists before after : Z,
      result (run (micros 16000000) (Machine 128 7 3 2 0 1)) = Some before
      /\ result (run (micros 16000000)
                     (final (run (init true 16000000) (Machine 128 7 3 2 0 1))))
         = Some after
      /\ after < before.
Proof.
  split; [reflexivity|].
  apply (proj2 (second_init_zeroes_count_only 16000000 (Machine 128 7 3 2 0 1)) 4);
    first [reflexivity | simpl; lia | vm_compute; reflexivity].
Defined.

(** C9.  From a state whose overflow tally is 0, as it is at program
    start, [init] followed at once by [micros] returns 0, for every
    supported frequency. *)
Theorem init_then_micros_is_zero
  (F k : Z) (s : machine)
  (HF : Conversion_Constant F = Some k)
  (Htally : timer0_overflow s = 0) :
  result (run (init true F ;; micros F) s) = Some 0.
Proof.
  rewrite run_bind. cbn [result].
  rewrite run_init_enabled. cbn [final].
  rewrite run_micros. cbn [result timer0_overflow TCNT0].
  rewrite HF, Htally. cbn [option_map].
  rewrite scaled_ticks. f_equal.
  replace (k * (0 * 256 + 0)) with 0 by ring. reflexivity.
Qed.

(** C9, from reset at 9.6 MHz. *)
Lemma init_then_micros_is_zero_witness :
  Conversion_Constant 9600000 = Some 7
  /\ timer0_overflow power_on = 0
  /\ result (run (init true 9600000 ;; micros 9600000) power_on) = Some 0.
Proof.
  split; [reflexivity|]. split; [reflexivity|].
  apply (@init_then_micros_is_zero 9600000 7 power_on); reflexivity.
Defined.

(** ** Busy-wait delay *)

(** C6.  [delay(ms)], for every [uint16_t] argument and given more loop
    tests than [ms], returns, having called the one-millisecond busy-wait
    exactly [ms] times and nothing else; the machine is unchanged.  For
    [ms = 0] it makes no access at all. *)
Theorem delay_waits_ms_times
  (fuel : nat) (ms : Z) (s : machine)
  (Hms : 0 <= ms < 2 ^ 16)
  (Hfuel : (Z.to_nat ms < fuel)%nat) :
  run (delay fuel ms) s =
    Outcome (Some tt) s (repeat (busy_wait_ms 1, interrupts_on s) (Z.to_nat ms))
  /\ length (trace (run (delay fuel ms) s)) = Z.to_nat ms
  /\ (ms = 0 -> trace (run (delay fuel ms) s) = []).
Proof.
  rewrite run_delay by assumption. cbn [trace].
  split; [reflexivity|]. split; [apply repeat_length|].
  intros ->. reflexivity.
Qed.

(** C6, for [delay(3)] and [delay(0)]. *)
Lemma delay_waits_ms_times_witness :
  trace (run (delay 4 3) power_on) =
    [ (busy_wait_ms 1, false); (busy_wait_ms 1, false); (busy_wait_ms 1, false) ]
  /\ run (delay 1 0) power_on = Outcome (Some tt) power_on [].
Proof.
  split.
  - rewrite (proj1 (@delay_waits_ms_times 4 3 power_on ltac:(lia) ltac:(simpl; lia))).
    reflexivity.
  - exact (proj1 (@delay_waits_ms_times 1 0 power_on ltac:(lia) ltac:(simpl; lia))).
Defined.

(** * Further properties of [wiring.c] *)

(** ** The value [micros] computes *)

(** X1.  [micros] returns a value exactly for the ten frequencies its
    [#if] chain tests for; for every other [F_CPU] it reaches its end
    without a [return] statement, whatever the machine state. *)
Theorem micros_returns_iff_supported :
  forall (F : Z) (s : machine),
    (In F supported_frequencies ->
     exists v : Z, result (run (micros F) s) = Some v)
    /\ (~ In F supported_frequencies -> result (run (micros F) s) = None).
Proof.
  intros F s. rewrite run_micros. cbn [result].
  unfold Conversion_Constant, Conversion_Constant_table, supported_frequencies.
  cbn [lookup In].
  split.
  - intros H.
    repeat (destruct H as [<- | H]; [eexists; reflexivity | ]).
    contradiction.
  - intros H.
    repeat match goal with
           | |- context [F =? ?c] =>
               destruct (Z.eqb_spec F c) as [-> | _];
               [ exfalso; apply H; tauto | ]
           end.
    reflexivity.
Qed.

(** X1, at 16 MHz and at an unlisted 2 MHz. *)
Lemma micros_returns_iff_supported_witness :
  (exists v : Z, result (run (micros 16000000) power_on) = Some v)
  /\ result (run (micros 2000000) power_on) = None.
Proof.
  split.
  - apply (proj1 (micros_returns_iff_supported 16000000 power_on)).
    simpl; tauto.
  - apply (proj2 (micros_returns_iff_supported 2000000 power_on)).
    simpl. intros H.
    repeat (destruct H as [H | H]; [discriminate H | ]). exact H.
Defined.

(** X2.  The three 32-bit truncations in [((x << 8) + t) * k] lose no more
    than one reduction does: for a supported frequency the value returned
    is [k * (tally * 256 + count)] modulo 2^32, and it lies in the range of
    [uint32_t], for every machine state. *)
Theorem micros_closed_form
  (F k : Z) (s : machine)
  (HF : Conversion_Constant F = Some k) :
  result (run (micros F) s) = Some ((k * elapsed_ticks s) mod 2 ^ 32)
  /\ 0 <= (k * elapsed_ticks s) mod 2 ^ 32 < 2 ^ 32.
Proof.
  rewrite run_micros. cbn [result]. rewrite HF. cbn [option_map].
  rewrite scaled_ticks. split; [reflexivity|].
  apply Z.mod_pos_bound. lia.
Qed.

(** X2, at 12 MHz. *)
Lemma micros_closed_form_witness :
  result (run (micros 12000000) (Machine 128 9 3 2 0 4))
  = Some ((5 * elapsed_ticks (Machine 128 9 3 2 0 4)) mod 2 ^ 32).
Proof.
  apply (proj1 (@micros_closed_form 12000000 5 (Machine 128 9 3 2 0 4) eq_refl)).
Defined.

(** X3.  The top eight bits of the overflow tally never reach the result:
    tallies that differ by a multiple of 2^24 read the same, for every
    build frequency. *)
Theorem micros_ignores_tally_high_byte :
  forall (F j : Z) (s : machine),
    result (run (micros F)
                (set_timer0_overflow (timer0_overflow s + j * 2 ^ 24) s))
    = result (run (micros F) s).
Proof.
  intros F j s. rewrite !run_micros. cbn [result].
  destruct s as [sreg tcnt tccr timsk tifr ovf].
  unfold set_timer0_overflow. cbn [TCNT0 timer0_overflow].
  destruct (Conversion_Constant F) as [k|]; cbn [option_map]; [|reflexivity].
  rewrite !scaled_ticks. f_equal. unfold uint32.
  replace (k * ((ovf + j * 2 ^ 24) * 256 + tcnt))
    with (k * (ovf * 256 + tcnt) + (k * j) * 2 ^ 32)
    by (change (2 ^ 32) with (2 ^ 24 * 256); ring).
  apply Z.mod_add. lia.
Qed.

(** X4.  Difference arithmetic is right across wraparound.  For two
    snapshots with ordered tick counts whose scaled distance is below
    2^32, the 32-bit difference of the two readings is the scaled
    distance, whether or not the result wrapped in between. *)
Theorem micros_difference_across_wraparound
  (F k : Z) (s1 s2 : machine) (r1 r2 : Z)
  (HF : Conversion_Constant F = Some k)
  (H1 : result (run (micros F) s1) = Some r1)
  (H2 : result (run (micros F) s2) = Some r2)
  (Hle : elapsed_ticks s1 <= elapsed_ticks s2)
  (Hshort : k * (elapsed_ticks s2 - elapsed_ticks s1) < 2 ^ 32) :
  uint32 (r2 - r1) = k * (elapsed_ticks s2 - elapsed_ticks s1).
Proof.
  pose proof (Conversion_Constant_pos _ HF) as Hk.
  rewrite run_micros in H1, H2. cbn [result] in H1, H2.
  rewrite HF in H1, H2. cbn [option_map] in H1, H2.
  rewrite scaled_ticks in H1, H2.
  injection H1 as <-. injection H2 as <-.
  fold (elapsed_ticks s1). fold (elapsed_ticks s2).
  unfold uint32.
  rewrite Zminus_mod_idemp_l, Zminus_mod_idemp_r.
  replace (k * elapsed_ticks s2 - k * elapsed_ticks s1)
    with (k * (elapsed_ticks s2 - elapsed_ticks s1)) by ring.
  apply Z.mod_small. nia.
Qed.

(** X4, at 16 MHz across the wraparound at 2^30 ticks: the readings are
    4294967292 and 36, ten ticks apart. *)
Lemma micros_difference_across_wraparound_witness :
  result (run (micros 16000000) (Machine 128 255 3 2 0 (2 ^ 22 - 1)))
    = Some 4294967292
  /\ result (run (micros 16000000) (Machine 128 9 3 2 0 (2 ^ 22))) = Some 36
  /\ uint32 (36 - 4294967292) = 4 * 10.
Proof.
  split; [reflexivity|]. split; [reflexivity|].
  apply (@micros_difference_across_wraparound 16000000 4
           (Machine 128 255 3 2 0 (2 ^ 22 - 1)) (Machine 128 9 3 2 0 (2 ^ 22))
           4294967292 36);
    first [reflexivity | vm_compute; discriminate].
Defined.



(** ** Overflows and the handler, composed *)

Lemma service_timer0_wraps (s : machine) :
  overflow_irq_enabled s = true ->
  Z.testbit (TIFR0 s) TOV0 = false ->
  service (timer0_wraps s) =
  (Machine (SREG s) 0 (TCCR0B s) (TIMSK0 s) (TIFR0 s)
           (add32 (timer0_overflow s) 1),
   [ (ld_timer0_overflow, false);
     (st_timer0_overflow (add32 (timer0_overflow s) 1), false) ]).
Proof.
  intros Hen Hflag. destruct s as [sreg tcnt tccr timsk tifr ovf].
  apply andb_prop in Hen. destruct Hen as [HI HM].
  apply service_wrap; assumption.
Qed.

Lemma service_off (s : machine) :
  interrupts_on s = false -> service s = (s, []).
Proof.
  intros H. apply service_idle. unfold overflow_irq_enabled. rewrite H.
  reflexivity.
Qed.

Lemma setbit_setbit (a n : Z) :
  0 <= n -> Z.setbit (Z.setbit a n) n = Z.setbit a n.
Proof.
  intros Hn. apply Z.bits_inj'. intros m Hm.
  destruct (Z.eq_dec m n) as [->|Hne].
  - rewrite !Z.setbit_eq by assumption. reflexivity.
  - rewrite (Z.setbit_neq (Z.setbit a n)) by lia. reflexivity.
Qed.

Lemma uint32_succ (a n : Z) :
  uint32 (uint32 (a + n) + 1) = uint32 (a + (n + 1)).
Proof.
  unfold uint32. rewrite Zplus_mod_idemp_l. f_equal. ring.
Qed.

(** X6.  [n] executions of the overflow handler add [n] to the tally
    modulo 2^32 and change nothing else; after a multiple of 2^32
    executions the machine is as before.  The tally wraps silently. *)
Theorem handler_runs_add_modulo
  (n : nat) (s : machine)
  (Hrange : 0 <= timer0_overflow s < 2 ^ 32) :
  handler_runs n s =
    set_timer0_overflow ((timer0_overflow s + Z.of_nat n) mod 2 ^ 32) s
  /\ (Z.of_nat n mod 2 ^ 32 = 0 -> handler_runs n s = s).
Proof.
  assert (Hruns : handler_runs n s =
                  set_timer0_overflow (uint32 (timer0_overflow s + Z.of_nat n)) s).
  { induction n as [|n IH].
    - cbn [handler_runs Nat.iter Z.of_nat]. rewrite Z.add_0_r.
      unfold uint32. rewrite Z.mod_small by assumption.
      destruct s; reflexivity.
    - change (handler_runs (S n) s)
        with (final (run TIM0_OVF_vect (handler_runs n s))).
      rewrite IH, run_TIM0_OVF_vect. cbn [final].
      unfold set_timer0_overflow.
      cbn [SREG TCNT0 TCCR0B TIMSK0 TIFR0 timer0_overflow].
      rewrite uint32_succ. do 2 f_equal. lia. }
  split; [exact Hruns|].
  intros Hmult. rewrite Hruns. unfold uint32.
  rewrite <- Zplus_mod_idemp_r, Hmult, Z.add_0_r.
  rewrite Z.mod_small by assumption. destruct s; reflexivity.
Qed.

(** X6, from the largest tally: one execution wraps it to 0. *)
Lemma handler_runs_add_modulo_witness :
  timer0_overflow (handler_runs 1 (Machine 128 0 3 2 0 (2 ^ 32 - 1))) = 0.
Proof.
  rewrite (proj1 (@handler_runs_add_modulo 1 (Machine 128 0 3 2 0 (2 ^ 32 - 1))
                    ltac:(simpl; lia))).
  reflexivity.
Defined.

(** Timer overflows in mainline code with the interrupt enabled: each one
    is counted. *)
Lemma overflows_counted (n : nat) (s : machine) :
  overflow_irq_enabled s = true ->
  Z.testbit (TIFR0 s) TOV0 = false ->
  0 <= timer0_overflow s < 2 ^ 32 ->
  overflows n s =
  Machine (SREG s) (match n with O => TCNT0 s | S _ => 0 end)
          (TCCR0B s) (TIMSK0 s) (TIFR0 s)
          (uint32 (timer0_overflow s + Z.of_nat n)).
Proof.
  intros Hen Hflag Hrange. induction n as [|n IH].
  - cbn [overflows Nat.iter Z.of_nat]. rewrite Z.add_0_r.
    unfold uint32. rewrite Z.mod_small by assumption.
    destruct s; reflexivity.
  - change (overflows (S n) s) with (overflow_serviced (overflows n s)).
    rewrite IH. unfold overflow_serviced. rewrite service_timer0_wraps.
    + cbn [fst SREG TCNT0 TCCR0B TIMSK0 TIFR0 timer0_overflow].
      unfold add32. rewrite uint32_succ. do 2 f_equal. lia.
    + exact Hen.
    + exact Hflag.
Qed.

Lemma init_enables_overflow_irq (F : Z) (s : machine) :
  overflow_irq_enabled (final (run (init true F) s)) = true.
Proof.
  rewrite run_init_enabled. cbn [final].
  unfold overflow_irq_enabled, interrupts_on. cbn [SREG TIMSK0].
  rewrite Z.setbit_eq by (unfold SREG_I; lia). reflexivity.
Qed.

(** X7.  End to end: after [init], [n] timer overflows and no further
    tick, [micros] reads [k * n * 256] modulo 2^32, when the tally was 0
    and no overflow was pending before [init]. *)
Theorem micros_after_init_and_overflows
  (F k : Z) (n : nat) (s : machine)
  (HF : Conversion_Constant F = Some k)
  (Htally : timer0_overflow s = 0)
  (Hflag : Z.testbit (TIFR0 s) TOV0 = false) :
  result (run (micros F) (overflows n (final (run (init true F) s))))
  = Some ((k * (Z.of_nat n * 256)) mod 2 ^ 32).
Proof.
  pose proof (init_enables_overflow_irq F s) as Hen.
  rewrite run_init_enabled in *. cbn [final] in *.
  rewrite overflows_counted;
    cbn [SREG TCNT0 TCCR0B TIMSK0 TIFR0 timer0_overflow];
    [ | exact Hen | exact Hflag | rewrite Htally; lia ].
  rewrite run_micros. cbn [result timer0_overflow TCNT0].
  rewrite HF, Htally. cbn [option_map].
  rewrite scaled_ticks. rewrite uint32_scaled_tally.
  unfold uint32. do 2 f_equal.
  destruct n; cbn [Z.add]; ring.
Qed.

(** X7, at 16 MHz after three overflows: 3 * 256 * 4 microseconds. *)
Lemma micros_after_init_and_overflows_witness :
  result (run (micros 16000000)
              (overflows 3 (final (run (init true 16000000) power_on))))
  = Some 3072.
Proof.
  rewrite (@micros_after_init_and_overflows 16000000 4 3 power_on
             eq_refl eq_refl eq_refl).
  reflexivity.
Defined.

Lemma timer0_wraps_twice (s : machine) :
  timer0_wraps (timer0_wraps s) = timer0_wraps s.
Proof.
  destruct s as [sreg tcnt tccr timsk tifr ovf].
  unfold timer0_wraps, set_TIFR0, set_TCNT0.
  cbn [SREG TCNT0 TCCR0B TIMSK0 TIFR0 timer0_overflow].
  rewrite setbit_setbit by (unfold TOV0; lia). reflexivity.
Qed.

(** X8.  Overflows are lost while interrupts are globally disabled.
    However many timer overflows (at least one) occur with the global
    interrupt flag clear, the tally is not touched and the one flag bit is
    all that remembers them: once interrupts are enabled again the handler
    runs a single time. *)
Theorem overflows_while_disabled_count_once
  (n : nat) (s : machine)
  (Hoff : interrupts_on s = false)
  (Hmask : Z.testbit (TIMSK0 s) TOIE0 = true) :
  overflows (S n) s = timer0_wraps s
  /\ timer0_overflow (overflows (S n) s) = timer0_overflow s
  /\ timer0_overflow
       (fst (service (snd (exec op_sei (overflows (S n) s)))))
     = (timer0_overflow s + 1) mod 2 ^ 32.
Proof.
  assert (Hall : overflows (S n) s = timer0_wraps s).
  { induction n as [|n IH].
    - change (overflows 1 s) with (fst (service (timer0_wraps s))).
      rewrite service_off by (destruct s; exact Hoff). reflexivity.
    - change (overflows (S (S n)) s)
        with (fst (service (timer0_wraps (overflows (S n) s)))).
      rewrite IH, timer0_wraps_twice.
      rewrite service_off by (destruct s; exact Hoff). reflexivity. }
  rewrite Hall. split; [reflexivity|]. split; [destruct s; reflexivity|].
  destruct s as [sreg tcnt tccr timsk tifr ovf].
  cbn [TIMSK0] in Hmask.
  unfold timer0_wraps, set_TIFR0, set_TCNT0.
  cbn [exec snd SREG TCNT0 TCCR0B TIMSK0 TIFR0 timer0_overflow].
  unfold set_SREG. cbn [SREG TCNT0 TCCR0B TIMSK0 TIFR0 timer0_overflow].
  rewrite service_pending.
  - reflexivity.
  - unfold overflow_irq_enabled, interrupts_on. cbn [SREG TIMSK0].
    rewrite Z.setbit_eq by (unfold SREG_I; lia). rewrite Hmask. reflexivity.
  - cbn [TIFR0]. apply Z.setbit_eq. unfold TOV0; lia.
Qed.

(** X8, for five overflows during a critical section. *)
Lemma overflows_while_disabled_count_once_witness :
  timer0_overflow (overflows 5 (Machine 0 100 3 2 0 7)) = 7
  /\ timer0_overflow
       (fst (service (snd (exec op_sei (overflows 5 (Machine 0 100 3 2 0 7))))))
     = 8.
Proof.
  pose proof (@overflows_while_disabled_count_once 4 (Machine 0 100 3 2 0 7)
                eq_refl eq_refl) as (_ & W2 & W3).
  split; [exact W2 | exact W3].
Defined.

(** X9.  [micros] can step backwards without any wraparound.  When the
    timer overflows between the read of the live count and [cli], the call
    returns [k] times the stale live count more than a call made right
    after it, once the handler has run and the count register restarted
    from 0. *)
Theorem micros_race_then_backwards
  (F k : Z) (s : machine)
  (HF : Conversion_Constant F = Some k)
  (Hirq : overflow_irq_enabled s = true)
  (Hflag : Z.testbit (TIFR0 s) TOV0 = false)
  (Hcount : 0 < TCNT0 s < 256)
  (Htally : 0 <= timer0_overflow s)
  (Hnowrap : k * (elapsed_ticks s + 256) < 2 ^ 32) :
  exists v v' : Z,
    result (run_irq [false; false; true] (micros F) s) = Some v
    /\ result (run (micros F)
                   (final (run_irq [false; false; true] (micros F) s)))
       = Some v'
    /\ v' < v
    /\ v - v' = k * TCNT0 s.
Proof.
  pose proof (Conversion_Constant_pos _ HF) as Hk.
  destruct s as [sreg tcnt tccr timsk tifr ovf].
  pose proof Hirq as Hbits. apply andb_prop in Hbits. destruct Hbits as [HI HM].
  unfold interrupts_on in HI. unfold elapsed_ticks in Hnowrap.
  cbn [SREG TCNT0 TCCR0B TIMSK0 TIFR0 timer0_overflow] in *.
  rewrite (@run_irq_micros_early F sreg tcnt tccr timsk tifr ovf HI HM Hflag).
  cbn [result final]. rewrite run_micros.
  cbn [result timer0_overflow TCNT0]. rewrite HF. cbn [option_map].
  rewrite !scaled_ticks. unfold add32. rewrite !uint32_scaled_tally.
  do 2 eexists. split; [reflexivity|]. split; [reflexivity|].
  unfold uint32. rewrite !Z.mod_small by nia. nia.
Qed.

(** X9, at 16 MHz with tally 5 and live count 255: 7164 and then 6144. *)
Lemma micros_race_then_backwards_witness :
  exists v v' : Z,
    result (run_irq [false; false; true] (micros 16000000)
                    (Machine 128 255 3 2 0 5)) = Some v
    /\ result (run (micros 16000000)
                   (final (run_irq [false; false; true] (micros 16000000)
                                   (Machine 128 255 3 2 0 5))))
       = Some v'
    /\ v' < v
    /\ v - v' = 4 * 255.
Proof.
  apply (@micros_race_then_backwards 16000000 4 (Machine 128 255 3 2 0 5));
    first [reflexivity | simpl; lia | vm_compute; reflexivity].
Defined.

(** ** [init] once more *)

(** X10.  On the registers [init] is idempotent: run again on the state it
    left, with nothing happening in between, it leaves the same state, in
    either build. *)
Theorem init_idempotent_on_registers :
  forall (ENABLE_MICROS : bool) (F : Z) (s : machine),
    final (run (init ENABLE_MICROS F)
               (final (run (init ENABLE_MICROS F) s)))
    = final (run (init ENABLE_MICROS F) s).
Proof.
  intros [|] F s.
  - rewrite !run_init_enabled. cbn [final SREG TIFR0 timer0_overflow].
    rewrite setbit_setbit by (unfold SREG_I; lia). reflexivity.
  - rewrite !run_init_disabled. cbn [final].
    destruct s as [sreg tcnt tccr timsk tifr ovf].
    unfold set_SREG. cbn [SREG TCNT0 TCCR0B TIMSK0 TIFR0 timer0_overflow].
    rewrite setbit_setbit by (unfold SREG_I; lia). reflexivity.
Qed.

(** ** [micros] inside a critical section *)

Lemma wrap_choice (ov : list bool) (s : machine) :
  match ov with true :: _ => timer0_wraps s | _ => s end
  = if hd false ov then timer0_wraps s else s.
Proof. destruct ov as [|[|] ov']; reflexivity. Qed.

(** One access with interrupts globally disabled: the timer may wrap, the
    handler does not run. *)
Lemma run_irq_Do_off {A : Type} (ov : list bool) (o : op) (k : Z -> prog A)
      (s : machine) (b : bool) (a : A) (f : machine) (tr : list event) :
  hd false ov = b ->
  interrupts_on s = false ->
  run_irq (tl ov) (k (fst (exec o (if b then timer0_wraps s else s))))
          (snd (exec o (if b then timer0_wraps s else s)))
  = Outcome a f tr ->
  run_irq ov (Do o k) s = Outcome a f ((o, false) :: tr).
Proof.
  intros Hb Hoff Hrest.
  assert (Hoff' : interrupts_on (if b then timer0_wraps s else s) = false)
    by (destruct b; destruct s; exact Hoff).
  erewrite run_irq_Do
    by (rewrite wrap_choice, Hb; apply service_off; exact Hoff').
  rewrite Hrest, Hoff'. reflexivity.
Qed.

Lemma run_irq_Ret_off {A : Type} (ov : list bool) (a : A) (s : machine)
      (b : bool) :
  hd false ov = b ->
  interrupts_on s = false ->
  run_irq ov (Ret a) s = Outcome a (if b then timer0_wraps s else s) [].
Proof.
  intros Hb Hoff.
  apply run_irq_Ret. rewrite wrap_choice, Hb. apply service_off.
  destruct b; destruct s; exact Hoff.
Qed.

(** The whole call with interrupts disabled, in terms of the places at
    which the timer wraps. *)
Lemma run_irq_micros_off (F : Z) (ov : list bool)
      (sreg tcnt tccr timsk tifr ovf : Z) :
  Z.testbit sreg SREG_I = false ->
  exists (tcnt' tifr' : Z),
    run_irq ov (micros F) (Machine sreg tcnt tccr timsk tifr ovf) =
    Outcome
      (option_map
         (mul32 (add32 (shl32 ovf 8)
                       (if hd false ov || hd false (tl ov) then 0 else tcnt)))
         (Conversion_Constant F))
      (Machine sreg tcnt' tccr timsk tifr' ovf)
      [ (ld_SREG, false); (ld_TCNT0, false); (op_cli, false);
        (ld_timer0_overflow, false); (st_SREG sreg, false) ].
Proof.
  intros Hoff.
  assert (Hoff1 : forall c i, interrupts_on (Machine sreg c tccr timsk i ovf) = false)
    by (intros; exact Hoff).
  assert (Hoff2 : forall c i,
             interrupts_on (Machine (Z.clearbit sreg SREG_I) c tccr timsk i ovf)
             = false)
    by (intros; apply Z.clearbit_eq).
  unfold micros.
  cbn [bind rd_SREG rd_TCNT0 cli rd_timer0_overflow wr_SREG].
  destruct (hd false ov) eqn:E1;
    destruct (hd false (tl ov)) eqn:E2;
    destruct (hd false (tl (tl ov))) eqn:E3;
    destruct (hd false (tl (tl (tl ov)))) eqn:E4;
    destruct (hd false (tl (tl (tl (tl ov))))) eqn:E5;
    destruct (hd false (tl (tl (tl (tl (tl ov)))))) eqn:E6;
    do 2 eexists;
    (eapply run_irq_Do_off; [exact E1 | apply Hoff1 | ]);
    unfold timer0_wraps, set_TIFR0, set_TCNT0, set_SREG;
    cbn [exec fst snd SREG TCNT0 TCCR0B TIMSK0 TIFR0 timer0_overflow];
    (eapply run_irq_Do_off; [exact E2 | apply Hoff1 | ]);
    unfold timer0_wraps, set_TIFR0, set_TCNT0, set_SREG;
    cbn [exec fst snd SREG TCNT0 TCCR0B TIMSK0 TIFR0 timer0_overflow];
    (eapply run_irq_Do_off; [exact E3 | apply Hoff1 | ]);
    unfold timer0_wraps, set_TIFR0, set_TCNT0, set_SREG;
    cbn [exec fst snd SREG TCNT0 TCCR0B TIMSK0 TIFR0 timer0_overflow];
    (eapply run_irq_Do_off; [exact E4 | apply Hoff2 | ]);
    unfold timer0_wraps, set_TIFR0, set_TCNT0, set_SREG;
    cbn [exec fst snd SREG TCNT0 TCCR0B TIMSK0 TIFR0 timer0_overflow];
    (eapply run_irq_Do_off; [exact E5 | apply Hoff2 | ]);
    unfold timer0_wraps, set_TIFR0, set_TCNT0, set_SREG;
    cbn [exec fst snd SREG TCNT0 TCCR0B TIMSK0 TIFR0 timer0_overflow];
    rewrite micros_tail;
    (rewrite (run_irq_Ret_off _ _ _ E6) by apply Hoff1);
    unfold timer0_wraps, set_TIFR0, set_TCNT0;
    cbn [orb SREG TCNT0 TCCR0B TIMSK0 TIFR0 timer0_overflow];
    reflexivity.
Qed.

(** X11.  Called with interrupts globally disabled, [micros] never lets
    the handler run and never enables interrupts, wherever the timer
    overflows during the call: it makes its five accesses and no other,
    leaves the tally, the timer setup and the status register as they
    were, and computes its result from the tally on entry and the live
    count it read (0 if the timer wrapped before that read). *)
Theorem micros_with_interrupts_disabled
  (F : Z) (ov : list bool) (s : machine)
  (Hoff : interrupts_on s = false) :
  let r := run_irq ov (micros F) s in
  let t := if hd false ov || hd false (tl ov) then 0 else TCNT0 s in
  result r =
    option_map (mul32 (add32 (shl32 (timer0_overflow s) 8) t))
               (Conversion_Constant F)
  /\ map fst (trace r) =
     [ ld_SREG; ld_TCNT0; op_cli; ld_timer0_overflow; st_SREG (SREG s) ]
  /\ SREG (final r) = SREG s
  /\ timer0_overflow (final r) = timer0_overflow s
  /\ TCCR0B (final r) = TCCR0B s
  /\ TIMSK0 (final r) = TIMSK0 s.
Proof.
  cbv zeta.
  destruct s as [sreg tcnt tccr timsk tifr ovf].
  destruct (@run_irq_micros_off F ov sreg tcnt tccr timsk tifr ovf Hoff)
    as (tcnt' & tifr' & Hrun).
  rewrite Hrun. cbn [result final trace map fst SREG TCNT0 TCCR0B TIMSK0
                     timer0_overflow].
  repeat split.
Qed.

(** X11, for a call with interrupts off during which the timer wraps
    before every access. *)
Lemma micros_with_interrupts_disabled_witness :
  let r := run_irq [true; true; true; true; true; true] (micros 16000000)
                   (Machine 0 200 3 2 0 5) in
  result r = Some 5120
  /\ timer0_overflow (final r) = 5
  /\ SREG (final r) = 0.
Proof.
  pose proof (@micros_with_interrupts_disabled 16000000
                [true; true; true; true; true; true] (Machine 0 200 3 2 0 5)
                eq_refl) as (W1 & _ & W3 & W4 & _).
  cbv zeta. split; [exact W1|]. split; [exact W4 | exact W3].
Defined.

(** ** One overflow anywhere in a call of [micros] *)

Section SingleOverflow.
Variables (F sreg tcnt tccr timsk tifr ovf : Z).
Hypothesis HI : Z.testbit sreg SREG_I = true.
Hypothesis HM : Z.testbit timsk TOIE0 = true.
Hypothesis HT : Z.testbit tifr TOV0 = false.

Local Ltac machine_bits :=
  unfold timer0_wraps, overflow_irq_enabled, interrupts_on,
    set_SREG, set_TCNT0, set_TIFR0;
  cbn [SREG TCNT0 TCCR0B TIMSK0 TIFR0 timer0_overflow tl exec fst snd];
  rewrite ?Z.clearbit_eq, ?HI, ?HM, ?HT, ?Z.setbit_eq by (unfold TOV0; lia).

Local Ltac idle := apply service_idle; machine_bits; reflexivity.

Local Ltac wrapped :=
  first [ exact (@service_wrap sreg tcnt tccr timsk tifr ovf HI HM HT)
        | exact (@service_wrap sreg 0 tccr timsk tifr ovf HI HM HT) ].

Local Ltac step :=
  first [ erewrite run_irq_Do by idle
        | erewrite run_irq_Do by wrapped
        | erewrite run_irq_Ret by idle
        | erewrite run_irq_Ret by wrapped ];
  cbn [tl exec fst snd result final trace app];
  unfold set_SREG; cbn [SREG TCNT0 TCCR0B TIMSK0 TIFR0 timer0_overflow].

(** The timer wraps before the count register is read: the handler runs
    first and the call reads the new tally and the restarted count. *)
Lemma run_irq_micros_before_count (i : nat) :
  (i < 2)%nat ->
  exists tr : list event,
    run_irq (single_overflow i) (micros F)
            (Machine sreg tcnt tccr timsk tifr ovf) =
    Outcome
      (option_map (mul32 (add32 (shl32 (add32 ovf 1) 8) 0))
                  (Conversion_Constant F))
      (Machine sreg 0 tccr timsk tifr (add32 ovf 1))
      tr
    /\ length (filter is_handler_store tr) = 1%nat.
Proof.
  intros Hi. unfold micros.
  cbn [bind rd_SREG rd_TCNT0 cli rd_timer0_overflow wr_SREG].
  destruct i as [|[|i]]; [ | | lia ]; cbn [single_overflow repeat app];
    eexists; (split; [ do 5 step; rewrite micros_tail; step;
                        machine_bits; reflexivity
                      | reflexivity ]).
Qed.

(** The timer wraps after the tally was read: the call returns what an
    uninterrupted one returns, and the handler runs before it ends. *)
Lemma run_irq_micros_after_tally (i : nat) :
  (4 <= i < 6)%nat ->
  exists tr : list event,
    run_irq (single_overflow i) (micros F)
            (Machine sreg tcnt tccr timsk tifr ovf) =
    Outcome
      (option_map (mul32 (add32 (shl32 ovf 8) tcnt)) (Conversion_Constant F))
      (Machine sreg 0 tccr timsk tifr (add32 ovf 1))
      tr
    /\ length (filter is_handler_store tr) = 1%nat.
Proof.
  intros Hi. unfold micros.
  cbn [bind rd_SREG rd_TCNT0 cli rd_timer0_overflow wr_SREG].
  destruct i as [|[|[|[|[|[|i]]]]]]; try lia; cbn [single_overflow repeat app];
    eexists; (split; [ do 5 step; rewrite micros_tail; step;
                        machine_bits; reflexivity
                      | reflexivity ]).
Qed.
End SingleOverflow.

(** X12.  A single timer overflow at any point of a call of [micros], made
    with the overflow interrupt enabled and none pending, is counted
    exactly once by the time the call ends: the handler stores the tally
    once, the tally is one more than on entry, and the value returned is
    the reading of a tick count within one overflow's worth of ticks of
    the tick count at the overflow. *)
Theorem micros_single_overflow_counted_once
  (F k : Z) (i : nat) (s : machine)
  (HF : Conversion_Constant F = Some k)
  (Hirq : overflow_irq_enabled s = true)
  (Hflag : Z.testbit (TIFR0 s) TOV0 = false)
  (Hcount : 0 <= TCNT0 s < 256)
  (Hi : (i < 6)%nat) :
  let r := run_irq (single_overflow i) (micros F) s in
  final r = Machine (SREG s) 0 (TCCR0B s) (TIMSK0 s) (TIFR0 s)
                    ((timer0_overflow s + 1) mod 2 ^ 32)
  /\ length (filter is_handler_store (trace r)) = 1%nat
  /\ exists T : Z,
      result r = Some ((k * T) mod 2 ^ 32)
      /\ Z.abs (T - (timer0_overflow s + 1) * 256) <= 256.
Proof.
  cbv zeta.
  destruct s as [sreg tcnt tccr timsk tifr ovf].
  pose proof Hirq as Hbits. apply andb_prop in Hbits. destruct Hbits as [HI HM].
  unfold interrupts_on in HI.
  cbn [SREG TCNT0 TCCR0B TIMSK0 TIFR0 timer0_overflow] in *.
  assert (Hcases : (i < 2 \/ i = 2 \/ i = 3 \/ 4 <= i < 6)%nat) by lia.
  destruct Hcases as [Hlt | [-> | [-> | Hge]]].
  - destruct (@run_irq_micros_before_count F sreg tcnt tccr timsk tifr ovf
                HI HM Hflag i Hlt) as (tr & Hrun & Hone).
    rewrite Hrun. cbn [result final trace]. rewrite HF. cbn [option_map].
    split; [reflexivity|]. split; [exact Hone|].
    exists ((ovf + 1) * 256 + 0). split; [|lia].
    rewrite scaled_ticks. unfold add32 at 1. rewrite uint32_scaled_tally.
    reflexivity.
  - cbn [single_overflow repeat app].
    rewrite (@run_irq_micros_early F sreg tcnt tccr timsk tifr ovf HI HM Hflag).
    cbn [result final trace]. rewrite HF. cbn [option_map].
    split; [reflexivity|]. split; [reflexivity|].
    exists ((ovf + 1) * 256 + tcnt). split; [|lia].
    rewrite scaled_ticks. unfold add32 at 1. rewrite uint32_scaled_tally.
    reflexivity.
  - cbn [single_overflow repeat app].
    rewrite (@run_irq_micros_late F sreg tcnt tccr timsk tifr ovf HI HM Hflag).
    cbn [result final trace]. rewrite HF. cbn [option_map].
    split; [reflexivity|]. split; [reflexivity|].
    exists (ovf * 256 + tcnt). split; [|lia].
    rewrite scaled_ticks. reflexivity.
  - destruct (@run_irq_micros_after_tally F sreg tcnt tccr timsk tifr ovf
                HI HM Hflag i Hge) as (tr & Hrun & Hone).
    rewrite Hrun. cbn [result final trace]. rewrite HF. cbn [option_map].
    split; [reflexivity|]. split; [exact Hone|].
    exists (ovf * 256 + tcnt). split; [|lia].
    rewrite scaled_ticks. reflexivity.
Qed.

(** X12, for an overflow just before [micros] returns. *)
Lemma micros_single_overflow_counted_once_witness :
  timer0_overflow
    (final (run_irq (single_overflow 5) (micros 16000000)
                    (Machine 128 255 3 2 0 5))) = 6.
Proof.
  pose proof (@micros_single_overflow_counted_once 16000000 4 5
                (Machine 128 255 3 2 0 5)
                eq_refl eq_refl eq_refl ltac:(simpl; lia) ltac:(lia))
    as (W1 & _).
  cbv zeta in W1. rewrite W1. reflexivity.
Defined.

(** ** [delay] while the timer runs *)

Lemma wraps_within_S (n : nat) (ov : list bool) :
  wraps_within (S n) ov
  = ((if hd false ov then 1 else 0) + wraps_within n (tl ov))%nat.
Proof.
  unfold wraps_within. destruct ov as [|[|] ov']; cbn [firstn filter hd tl length].
  - destruct n; reflexivity.
  - reflexivity.
  - reflexivity.
Qed.

(** What the timer and the handler do between two accesses of mainline
    code that runs with the overflow interrupt enabled, none pending. *)
Lemma service_between (ov : list bool) (s : machine) :
  overflow_irq_enabled s = true ->
  Z.testbit (TIFR0 s) TOV0 = false ->
  service (match ov with true :: _ => timer0_wraps s | _ => s end) =
  if hd false ov
  then (Machine (SREG s) 0 (TCCR0B s) (TIMSK0 s) (TIFR0 s)
                (add32 (timer0_overflow s) 1),
        [ (ld_timer0_overflow, false);
          (st_timer0_overflow (add32 (timer0_overflow s) 1), false) ])
  else (s, []).
Proof.
  intros Hen Hflag. rewrite wrap_choice. destruct (hd false ov).
  - apply service_timer0_wraps; assumption.
  - apply service_idle. rewrite Hen, Hflag. reflexivity.
Qed.

Lemma run_irq_delay (fuel : nat) :
  forall (ms : Z) (ov : list bool) (s : machine),
    0 <= ms < 2 ^ 16 ->
    (Z.to_nat ms < fuel)%nat ->
    overflow_irq_enabled s = true ->
    Z.testbit (TIFR0 s) TOV0 = false ->
    0 <= timer0_overflow s < 2 ^ 32 ->
    exists (tcnt' : Z) (tr : list event),
      run_irq ov (delay fuel ms) s =
      Outcome (Some tt)
              (Machine (SREG s) tcnt' (TCCR0B s) (TIMSK0 s) (TIFR0 s)
                       (uint32 (timer0_overflow s
                                + Z.of_nat (wraps_within (S (Z.to_nat ms)) ov))))
              tr
      /\ length (filter is_busy_wait tr) = Z.to_nat ms
      /\ length (filter is_handler_store tr)
         = wraps_within (S (Z.to_nat ms)) ov.
Proof.
  induction fuel as [|fuel IH]; intros ms ov s Hms Hfuel Hen Hflag Hrange; [lia|].
  pose proof (@service_between ov s Hen Hflag) as Hsvc.
  cbn [delay].
  destruct (Z.eqb_spec ms 0) as [->|Hnz].
  - change (Z.to_nat 0) with 0%nat. rewrite wraps_within_S.
    change (wraps_within 0 (tl ov)) with 0%nat.
    destruct (hd false ov).
    + do 2 eexists. split; [apply run_irq_Ret; exact Hsvc|].
      split; reflexivity.
    + exists (TCNT0 s), (@nil event). split.
      * erewrite run_irq_Ret by exact Hsvc.
        cbn [Nat.add Z.of_nat]. rewrite Z.add_0_r.
        unfold uint32. rewrite Z.mod_small by assumption.
        destruct s; reflexivity.
      * split; reflexivity.
  - assert (Hdec : uint16 (ms - 1) = ms - 1)
      by (unfold uint16; apply Z.mod_small; lia).
    rewrite Hdec. cbn [bind _delay_ms].
    replace (Z.to_nat ms) with (S (Z.to_nat (ms - 1))) by lia.
    rewrite (wraps_within_S (S (Z.to_nat (ms - 1)))).
    destruct (hd false ov).
    + erewrite run_irq_Do by exact Hsvc. cbn [exec fst snd].
      destruct (IH (ms - 1) (tl ov)
                   (Machine (SREG s) 0 (TCCR0B s) (TIMSK0 s) (TIFR0 s)
                            (add32 (timer0_overflow s) 1)))
        as (tcnt' & tr & Hrun & Hbusy & Hstore);
        [ lia | lia | destruct s; exact Hen | exact Hflag
        | unfold add32, uint32; apply Z.mod_pos_bound; lia | ].
      cbn [SREG TCNT0 TCCR0B TIMSK0 TIFR0 timer0_overflow] in Hrun.
      rewrite Hrun. cbn [result final trace].
      do 2 eexists. split; [|split].
      * f_equal. f_equal. unfold add32. unfold uint32.
        rewrite Zplus_mod_idemp_l. f_equal. lia.
      * cbn [app filter is_busy_wait fst length]. rewrite Hbusy. reflexivity.
      * cbn [app filter is_handler_store fst length]. rewrite Hstore.
        reflexivity.
    + erewrite run_irq_Do by exact Hsvc. cbn [exec fst snd].
      destruct (IH (ms - 1) (tl ov) s) as (tcnt' & tr & Hrun & Hbusy & Hstore);
        [ lia | lia | exact Hen | exact Hflag | exact Hrange | ].
      rewrite Hrun. cbn [result final trace].
      do 2 eexists. split; [|split].
      * reflexivity.
      * cbn [app filter is_busy_wait fst length]. rewrite Hbusy. reflexivity.
      * cbn [app filter is_handler_store fst length]. rewrite Hstore.
        reflexivity.
Qed.

(** X13.  [delay] does not depend on the timer, and the timer does not
    lose count during it.  Run with the overflow interrupt enabled and the
    timer wrapping at any of its accesses, [delay(ms)] still returns after
    exactly [ms] one-millisecond waits; the handler runs once for each
    wrap, the tally grows by their number modulo 2^32, and the status
    register and timer setup are as before. *)
Theorem delay_counts_every_overflow
  (fuel : nat) (ms : Z) (ov : list bool) (s : machine)
  (Hms : 0 <= ms < 2 ^ 16)
  (Hfuel : (Z.to_nat ms < fuel)%nat)
  (Hirq : overflow_irq_enabled s = true)
  (Hflag : Z.testbit (TIFR0 s) TOV0 = false)
  (Hrange : 0 <= timer0_overflow s < 2 ^ 32) :
  let r := run_irq ov (delay fuel ms) s in
  let n := wraps_within (S (Z.to_nat ms)) ov in
  result r = Some tt
  /\ length (filter is_busy_wait (trace r)) = Z.to_nat ms
  /\ length (filter is_handler_store (trace r)) = n
  /\ timer0_overflow (final r) = (timer0_overflow s + Z.of_nat n) mod 2 ^ 32
  /\ SREG (final r) = SREG s
  /\ TCCR0B (final r) = TCCR0B s
  /\ TIMSK0 (final r) = TIMSK0 s.
Proof.
  cbv zeta.
  destruct (@run_irq_delay fuel ms ov s Hms Hfuel Hirq Hflag Hrange)
    as (tcnt' & tr & Hrun & Hbusy & Hstore).
  rewrite Hrun. cbn [result final trace SREG TCCR0B TIMSK0 timer0_overflow].
  repeat split; assumption.
Qed.

(** X13, for [delay(3)] with the timer wrapping before the first and the
    third wait. *)
Lemma delay_counts_every_overflow_witness :
  let r := run_irq [true; false; true] (delay 4 3) (Machine 128 0 3 2 0 9) in
  length (filter is_busy_wait (trace r)) = 3%nat
  /\ timer0_overflow (final r) = 11.
Proof.
  pose proof (@delay_counts_every_overflow 4 3 [true; false; true]
                (Machine 128 0 3 2 0 9)
                ltac:(lia) ltac:(simpl; lia) eq_refl eq_refl ltac:(simpl; lia))
    as (_ & W2 & _ & W4 & _).
  cbv zeta. split; [exact W2 | exact W4].
Defined.

(** ** [init] with an overflow pending *)

(** [init] in the enabled build, started with the overflow flag raised:
    the handler runs as soon as both the global flag and the overflow
    interrupt enable are set, which depends on the state on entry. *)
Lemma run_irq_init_pending (F sreg tcnt tccr timsk tifr ovf : Z) :
  Z.testbit tifr TOV0 = true ->
  exists tr : list event,
    run_irq [] (init true F) (Machine sreg tcnt tccr timsk tifr ovf) =
    Outcome tt
      (Machine (Z.setbit sreg SREG_I) 0
               (if F >=? 4800000 then Z.lor (_BV CS00) (_BV CS01) else _BV CS01)
               (_BV TOIE0) (Z.clearbit tifr TOV0) (add32 ovf 1))
      tr
    /\ length (filter is_handler_store tr) = 1%nat.
Proof.
  intros HT.
  assert (Hset : Z.testbit (Z.setbit sreg SREG_I) SREG_I = true)
    by (apply Z.setbit_eq; unfold SREG_I; lia).
  unfold init, wr_TCCR0B, wr_TIMSK0, wr_TCNT0, sei.
  destruct (F >=? 4800000);
    cbn [bind];
    destruct (Z.testbit sreg SREG_I) eqn:HI;
    destruct (Z.testbit timsk TOIE0) eqn:HM;
    eexists;
    (split;
     [ repeat
         (first
            [ erewrite run_irq_Do
                by (apply service_idle;
                    unfold overflow_irq_enabled, interrupts_on;
                    cbn [SREG TIMSK0 TIFR0];
                    rewrite ?Z.clearbit_eq, ?HI, ?HM, ?HT, ?Hset, ?andb_false_r;
                    reflexivity)
            | erewrite run_irq_Do
                by (apply service_pending;
                    unfold overflow_irq_enabled, interrupts_on;
                    cbn [SREG TIMSK0 TIFR0];
                    rewrite ?HI, ?HM, ?HT, ?Hset; reflexivity)
            | erewrite run_irq_Ret
                by (apply service_idle;
                    unfold overflow_irq_enabled, interrupts_on;
                    cbn [SREG TIMSK0 TIFR0];
                    rewrite ?Z.clearbit_eq, ?HI, ?HM, ?HT, ?Hset, ?andb_false_r;
                    reflexivity)
            | erewrite run_irq_Ret
                by (apply service_pending;
                    unfold overflow_irq_enabled, interrupts_on;
                    cbn [SREG TIMSK0 TIFR0];
                    rewrite ?HI, ?HM, ?HT, ?Hset; reflexivity) ];
          cbn [tl exec fst snd result final trace app];
          unfold set_SREG, set_TCCR0B, set_TIMSK0, set_TCNT0;
          cbn [SREG TCNT0 TCCR0B TIMSK0 TIFR0 timer0_overflow]);
       reflexivity
     | reflexivity ]).
Qed.

(** X14.  [init] does not clear a pending timer overflow.  Started with
    the overflow flag raised, [init] in the enabled build ends with the
    handler having run once: the flag is cleared and the tally is one more
    than before, although the count register was zeroed.  A [micros] call
    right after it then reads one overflow, [256 * k], where the tally was
    0, and not 0. *)
Theorem init_counts_pending_overflow
  (F : Z) (s : machine)
  (Hflag : Z.testbit (TIFR0 s) TOV0 = true) :
  let r := run_irq [] (init true F) s in
  final r =
    Machine (Z.setbit (SREG s) SREG_I) 0
            (if F >=? 4800000 then Z.lor (_BV CS00) (_BV CS01) else _BV CS01)
            (_BV TOIE0) (Z.clearbit (TIFR0 s) TOV0)
            ((timer0_overflow s + 1) mod 2 ^ 32)
  /\ length (filter is_handler_store (trace r)) = 1%nat
  /\ (forall k : Z,
         Conversion_Constant F = Some k ->
         timer0_overflow s = 0 ->
         result (run (micros F) (final r)) = Some (256 * k)).
Proof.
  cbv zeta.
  destruct s as [sreg tcnt tccr timsk tifr ovf]. cbn [TIFR0] in Hflag.
  destruct (@run_irq_init_pending F sreg tcnt tccr timsk tifr ovf Hflag)
    as (tr & Hrun & Hone).
  rewrite Hrun. cbn [final trace SREG TIFR0 timer0_overflow].
  split; [reflexivity|]. split; [exact Hone|].
  intros k HF ->. rewrite run_micros. cbn [result timer0_overflow TCNT0].
  rewrite HF. cbn [option_map].
  apply Conversion_Constant_cases in HF. simpl in HF.
  repeat (destruct HF as [[= <- <-] | HF]; [reflexivity | ]).
  contradiction.
Qed.

(** X14, from a reset state in which only the overflow flag is raised. *)
Lemma init_counts_pending_overflow_witness :
  Z.testbit (TIFR0 (Machine 0 0 0 0 2 0)) TOV0 = true
  /\ result (run (micros 16000000)
                 (final (run_irq [] (init true 16000000) (Machine 0 0 0 0 2 0))))
     = Some 1024.
Proof.
  split; [reflexivity|].
  pose proof (@init_counts_pending_overflow 16000000 (Machine 0 0 0 0 2 0)
                eq_refl) as (_ & _ & W).
  exact (W 4 eq_refl eq_refl).
Defined.
